(** * Verification of [web/src/modules/layerService.js]

    A shallow embedding of the four helpers exported by the module
    ([getMinMaxFromGeoJson], [getDynamicFillColorExpression],
    [findFirstSymbolLayer], [cleanupLayers]) and the properties the
    specification states about them.

    JavaScript numbers are IEEE 754 binary64 values; they are modelled with
    the standard library's [spec_float] (precision 53, [emax] 1024), so that
    [NaN], the two infinities and the two zeros behave as in the language. *)

From Stdlib Require Import ZArith Floats.SpecFloat.
From stdpp Require Import base option list strings gmap.

(** ** JavaScript numbers *)

Module Number.

Definition number : Type := spec_float.

Definition prec : Z := 53%Z.
Definition emax : Z := 1024%Z.

Definition NaN : number := S754_nan.
Definition Infinity : number := S754_infinity false.
Definition NegInfinity : number := S754_infinity true.
Definition zero : number := S754_zero false.
Definition neg_zero : number := S754_zero true.

(** The double nearest to an integer literal. *)
Definition of_Z (z : Z) : number := binary_normalize prec emax z 0%Z false.

Definition one : number := S754_finite false 4503599627370496 (-52)%Z.

(** [x + y], [x < y], [x > y], [x === y] on numbers; [le] is the order the
    properties are stated in. *)
Definition add (x y : number) : number := SFadd prec emax x y.
Definition lt (x y : number) : bool := SFltb x y.
Definition gt (x y : number) : bool := SFltb y x.
Definition le (x y : number) : bool := SFleb x y.
Definition strict_eq (x y : number) : bool := SFeqb x y.

(** [isNaN(x)] for an argument that is already a number. *)
Definition isNaN (x : number) : bool :=
  match x with S754_nan => true | _ => false end.

Definition is_pos_zero (x : number) : bool :=
  match x with S754_zero false => true | _ => false end.
Definition is_neg_zero (x : number) : bool :=
  match x with S754_zero true => true | _ => false end.

End Number.

Abbreviation number := Number.number.

Module Math.

(** [Math.min(...args)] as ECMAScript defines it: [NaN] if an argument is
    [NaN]; otherwise a left-to-right scan that starts from [+Infinity] and
    treats [-0] as smaller than [+0]. *)
Definition min_step (lowest n : number) : number :=
  if Number.is_neg_zero n && Number.is_pos_zero lowest then n
  else if Number.lt n lowest then n
  else lowest.

Definition min (args : list number) : number :=
  if existsb Number.isNaN args then Number.NaN
  else fold_left min_step args Number.Infinity.

(** [Math.max(...args)], the mirror image, starting from [-Infinity]. *)
Definition max_step (highest n : number) : number :=
  if Number.is_pos_zero n && Number.is_neg_zero highest then n
  else if Number.gt n highest then n
  else highest.

Definition max (args : list number) : number :=
  if existsb Number.isNaN args then Number.NaN
  else fold_left max_step args Number.NegInfinity.

End Math.

(** ** JavaScript values

    The values a parsed GeoJSON document can hold, plus [undefined] (the
    result of reading a property that is not there).  Map style expressions
    are nested arrays of the same values. *)

#[local] Unset Elimination Schemes.

Inductive jsval : Type :=
| JUndefined
| JNull
| JBool (b : bool)
| JNum (x : number)
| JStr (s : string)
| JArr (items : list jsval)
| JObj (fields : list (string * jsval)).

#[local] Set Elimination Schemes.

(** The [typeof] operator. *)
Definition typeof (v : jsval) : string :=
  match v with
  | JUndefined => "undefined"
  | JNull => "object"
  | JBool _ => "boolean"
  | JNum _ => "number"
  | JStr _ => "string"
  | JArr _ => "object"
  | JObj _ => "object"
  end.

Definition is_null (v : jsval) : bool :=
  match v with JNull => true | _ => false end.

(** ** GeoJSON data

    A feature collection is a list of features, each carrying a property
    bag; [properties] is the only member of a feature the module reads. *)

Record Feature : Type := { properties : gmap string jsval }.

Record GeoJson : Type := { features : list Feature }.

(** [obj[key]]: the stored value, or [undefined] when the key is absent. *)
Definition get_property (obj : gmap string jsval) (key : string) : jsval :=
  default JUndefined (obj !! key).

(** ** layerService.js, lines 20-38: [getMinMaxFromGeoJson] *)

(** The filter callback of line 22,
    [val => typeof val === 'number' && !isNaN(val) && val !== null].
    Only a [JNum] has [typeof] ['number'] (lemma [typeof_number]); for every
    other value [&&] stops at the first conjunct.  The kept values are
    numbers, so the result carries the number itself. *)
Definition keep_numeric (val : jsval) : option number :=
  match val with
  | JNum x =>
      if negb (Number.isNaN x) && negb (is_null val) then Some x else None
  | _ => None
  end.

(** Lines 21-22: [features.map(f => f.properties[statisticKey]).filter(...)]. *)
Definition numeric_values (geoJsonData : GeoJson) (statisticKey : string)
  : list number :=
  omap keep_numeric
    (map (λ f, get_property (properties f) statisticKey)
         (features geoJsonData)).

Definition getMinMaxFromGeoJson (geoJsonData : GeoJson) (statisticKey : string)
  : number * number :=
  let values := numeric_values geoJsonData statisticKey in
  if Nat.eqb (length values) 0 then
    (Number.zero, Number.zero)
  else
    let minValue := Math.min values in
    let maxValue := Math.max values in
    if Number.strict_eq minValue maxValue then
      (minValue, Number.add minValue Number.one)
    else
      (minValue, maxValue).

(** ** The chroma-js colour library

    The library is not part of the repository.  A scale is the configuration
    the builder calls accumulate; what the library computes from it (the
    colour of a scale at a value, brightening, hex printing) is left
    abstract. *)

Record Scale : Type := {
  scale_colors : list string;
  scale_domain : list number;
  scale_mode : string
}.

(** [chroma.scale(colors)], with the library's defaults. *)
Definition chroma_scale (colors : list string) : Scale :=
  {| scale_colors := colors;
     scale_domain := [Number.zero; Number.one];
     scale_mode := "rgb" |}.

(** [scale.domain(d)] and [scale.mode(m)]. *)
Definition domain (d : list number) (s : Scale) : Scale :=
  {| scale_colors := scale_colors s; scale_domain := d;
     scale_mode := scale_mode s |}.

Definition mode (m : string) (s : Scale) : Scale :=
  {| scale_colors := scale_colors s; scale_domain := scale_domain s;
     scale_mode := m |}.

Class Chroma : Type := {
  Color : Type;
  (** [scale(v)] *)
  scale_at : Scale → number → Color;
  (** [color.brighten()] *)
  brighten : Color → Color;
  (** [color.hex()] *)
  hex : Color → string
}.

(** ** layerService.js, lines 48-80: [getDynamicFillColorExpression] *)

Definition getDynamicFillColorExpression `{Chroma}
    (geoJsonData : GeoJson) (statisticKey : string) : jsval :=
  let '(minValue, maxValue) := getMinMaxFromGeoJson geoJsonData statisticKey in
  let colorScale :=
    mode "lab"
      (domain [minValue; maxValue]
         (chroma_scale ["#add8e6"; "#4682b4"; "#00008b"])) in
  JArr [
    JStr "case";
    JArr [JStr "boolean"; JArr [JStr "feature-state"; JStr "hover"]; JBool false];
    JArr [
      JStr "interpolate";
      JArr [JStr "linear"];
      JArr [JStr "coalesce"; JArr [JStr "get"; JStr statisticKey]; JNum Number.zero];
      JNum minValue; JStr (hex (brighten (scale_at colorScale minValue)));
      JNum maxValue; JStr (hex (brighten (scale_at colorScale maxValue)))
    ];
    JArr [
      JStr "interpolate";
      JArr [JStr "linear"];
      JArr [JStr "coalesce"; JArr [JStr "get"; JStr statisticKey]; JNum Number.zero];
      JNum minValue; JStr (hex (scale_at colorScale minValue));
      JNum maxValue; JStr (hex (scale_at colorScale maxValue))
    ]
  ].

(** ** The host map

    The map instance belongs to the rendering library, not to this module.
    It is modelled as the registry the module talks to: the ordered layers
    and the sources of the current style.  [calls] records, in order, the
    mutating calls made on the instance. *)

Record Layer : Type := { layer_id : string; layer_type : string }.

Record Source : Type := { source_type : string }.

Record Style : Type := {
  layers : list Layer;
  sources : gmap string Source
}.

Inductive MapCall : Type :=
| RemoveLayer (id : string)
| RemoveSource (id : string).

Record Map : Type := { style : Style; calls : list MapCall }.

(** A call on the map either returns a value and the map as it now is, or
    throws. *)
Inductive Outcome (A : Type) : Type :=
| Return (v : A) (map : Map)
| Throw (error : string).

Arguments Return {A} v map.
Arguments Throw {A} error.

Definition Js (A : Type) : Type := Map → Outcome A.

Definition ret {A : Type} (v : A) : Js A := λ map, Return v map.

Definition bind {A B : Type} (c : Js A) (k : A → Js B) : Js B :=
  λ map, match c map with
         | Return v map' => k v map'
         | Throw e => Throw e
         end.

Notation "'do' x <- c ; k" := (bind c (λ x, k))
  (at level 10, x name, c at level 100, k at level 200).
Notation "c ;; k" := (bind c (λ _, k))
  (at level 100, k at level 200, right associativity).

(** [array.forEach(callback)] *)
Fixpoint forEach {A : Type} (array : list A) (callback : A → Js unit) : Js unit :=
  match array with
  | [] => ret tt
  | x :: rest => callback x ;; forEach rest callback
  end.

(** Truthiness of a lookup result: an object is truthy, [undefined] is not. *)
Definition truthy {A : Type} (v : option A) : bool :=
  match v with Some _ => true | None => false end.

Definition has_id (id : string) (layer : Layer) : bool :=
  String.eqb (layer_id layer) id.

(** [map.getStyle()] *)
Definition getStyle (map : Map) : Style := style map.

(** [map.getLayer(id)] and [map.getSource(id)]: the entry, or [undefined]. *)
Definition getLayer (id : string) : Js (option Layer) :=
  λ map, Return (find (has_id id) (layers (style map))) map.

Definition getSource (id : string) : Js (option Source) :=
  λ map, Return (sources (style map) !! id) map.

(** [map.removeLayer(id)] and [map.removeSource(id)] delete the entry.  The
    host is taken at its strictest: removing an id that is not registered
    throws. *)
Definition removeLayer (id : string) : Js unit :=
  λ map,
    match find (has_id id) (layers (style map)) with
    | Some _ =>
        Return tt
          {| style := {| layers := filter (λ l, layer_id l ≠ id) (layers (style map));
                         sources := sources (style map) |};
             calls := calls map ++ [RemoveLayer id] |}
    | None => Throw "The layer does not exist in the map's style"
    end.

Definition removeSource (id : string) : Js unit :=
  λ map,
    match sources (style map) !! id with
    | Some _ =>
        Return tt
          {| style := {| layers := layers (style map);
                         sources := delete id (sources (style map)) |};
             calls := calls map ++ [RemoveSource id] |}
    | None => Throw "There is no source with this ID"
    end.

(** ** layerService.js, lines 87-95: [findFirstSymbolLayer]

    The [for ... of] loop with its early [return]; [None] is [null]. *)
Fixpoint first_symbol (layers : list Layer) : option string :=
  match layers with
  | [] => None
  | layer :: rest =>
      if String.eqb (layer_type layer) "symbol" then Some (layer_id layer)
      else first_symbol rest
  end.

Definition findFirstSymbolLayer (map : Map) : option string :=
  let layers := layers (getStyle map) in
  first_symbol layers.

(** ** layerService.js, lines 103-117: [cleanupLayers] *)

Definition cleanupLayers (layerIds sourceIds : list string) : Js unit :=
  forEach layerIds (λ layerId,
    do l <- getLayer layerId;
    if truthy l then removeLayer layerId else ret tt) ;;
  forEach sourceIds (λ sourceId,
    do s <- getSource sourceId;
    if truthy s then removeSource sourceId else ret tt).

(** ** The helpers with their exceptions

    The functions above are written for inputs of the expected shape in an
    ideal runtime.  Below, the same four bodies are run where the language
    can raise an exception: reading a member of [null], referring to a
    global that is not defined, spreading more values than the engine
    accepts as arguments of one call, asking an unloaded map for its
    style, and calls into the colour library that throw. *)

Inductive Error : Type :=
| TypeError
| RangeError
| ReferenceError
| LibraryError.

Inductive Completion (A : Type) : Type :=
| Normal (v : A)
| Abrupt (e : Error).

Arguments Normal {A} v.
Arguments Abrupt {A} e.

#[global] Instance Completion_ret : MRet Completion := λ A v, Normal v.

#[global] Instance Completion_bind : MBind Completion := λ A B k c,
  match c with
  | Normal v => k v
  | Abrupt e => Abrupt e
  end.

(** A feature as it arrives: its [properties] member is a property bag or
    [null] ([None]), which GeoJSON allows. *)
Record RawFeature : Type := { raw_properties : option (gmap string jsval) }.

Record RawGeoJson : Type := { raw_features : list RawFeature }.

(** The colour library with calls that may throw. *)
Record ChromaLib : Type := {
  LibColor : Type;
  scale_call : Scale → number → Completion LibColor;
  brighten_call : LibColor → Completion LibColor;
  hex_call : LibColor → Completion string
}.

(** The runtime: the largest number of arguments the engine accepts in one
    call ([None] for no limit, as in the language definition; engines have
    one and raise a [RangeError] beyond it), and the global [chroma]
    ([None] when it is not defined). *)
Record Environment : Type := {
  max_arguments : option N;
  chroma_global : option ChromaLib
}.

(** A map instance whose style may not be there yet. *)
Record MapInstance : Type := { instance : Map; style_loaded : bool }.

Module Runtime.

(** [f(...args)] *)
Definition spread (env : Environment) (f : list number → number)
    (args : list number) : Completion number :=
  match max_arguments env with
  | Some limit =>
      if (limit <? N.of_nat (length args))%N then Abrupt RangeError
      else Normal (f args)
  | None => Normal (f args)
  end.

(** [f.properties[statisticKey]] *)
Definition property_of (statisticKey : string) (f : RawFeature) : Completion jsval :=
  match raw_properties f with
  | Some bag => Normal (get_property bag statisticKey)
  | None => Abrupt TypeError
  end.

(** Lines 20-38. *)
Definition getMinMaxFromGeoJson (env : Environment) (geoJsonData : RawGeoJson)
    (statisticKey : string) : Completion (number * number) :=
  mapped ← mapM (property_of statisticKey) (raw_features geoJsonData);
  let values := omap keep_numeric mapped in
  if Nat.eqb (length values) 0 then
    mret (Number.zero, Number.zero)
  else
    minValue ← spread env Math.min values;
    maxValue ← spread env Math.max values;
    if Number.strict_eq minValue maxValue then
      mret (minValue, Number.add minValue Number.one)
    else
      mret (minValue, maxValue).

(** Lines 48-80. *)
Definition getDynamicFillColorExpression (env : Environment)
    (geoJsonData : RawGeoJson) (statisticKey : string) : Completion jsval :=
  range ← getMinMaxFromGeoJson env geoJsonData statisticKey;
  let '(minValue, maxValue) := range in
  match chroma_global env return Completion jsval with
  | None => Abrupt ReferenceError
  | Some chroma =>
      let colorScale :=
        mode "lab"
          (domain [minValue; maxValue]
             (chroma_scale ["#add8e6"; "#4682b4"; "#00008b"])) in
      c1 ← scale_call chroma colorScale minValue;
      b1 ← brighten_call chroma c1;
      hover_min ← hex_call chroma b1;
      c2 ← scale_call chroma colorScale maxValue;
      b2 ← brighten_call chroma c2;
      hover_max ← hex_call chroma b2;
      c3 ← scale_call chroma colorScale minValue;
      plain_min ← hex_call chroma c3;
      c4 ← scale_call chroma colorScale maxValue;
      plain_max ← hex_call chroma c4;
      mret (JArr [
        JStr "case";
        JArr [JStr "boolean"; JArr [JStr "feature-state"; JStr "hover"]; JBool false];
        JArr [
          JStr "interpolate";
          JArr [JStr "linear"];
          JArr [JStr "coalesce"; JArr [JStr "get"; JStr statisticKey]; JNum Number.zero];
          JNum minValue; JStr hover_min;
          JNum maxValue; JStr hover_max
        ];
        JArr [
          JStr "interpolate";
          JArr [JStr "linear"];
          JArr [JStr "coalesce"; JArr [JStr "get"; JStr statisticKey]; JNum Number.zero];
          JNum minValue; JStr plain_min;
          JNum maxValue; JStr plain_max
        ]
      ])
  end.

(** [map.getStyle()]: [undefined] while no style is loaded. *)
Definition getStyle (map : MapInstance) : option Style :=
  if style_loaded map then Some (style (instance map)) else None.

(** Lines 87-95. *)
Definition findFirstSymbolLayer (map : MapInstance) : Completion (option string) :=
  match getStyle map with
  | Some style => Normal (first_symbol (layers style))
  | None => Abrupt TypeError
  end.

End Runtime.



Definition raw (geoJsonData : GeoJson) : RawGeoJson :=
  {| raw_features := (λ f, {| raw_properties := Some (properties f) |})
                       <$> features geoJsonData |}.


(** A colour library all of whose calls return. *)
Definition returning (C : Chroma) : ChromaLib :=
  {| LibColor := @Color C;
     scale_call := λ s v, Normal (@scale_at C s v);
     brighten_call := λ c, Normal (@brighten C c);
     hex_call := λ c, Normal (@hex C c) |}.

(** ** Vocabulary of the properties *)

(** [x] is a numeric value of the collection for [key]: some feature stores
    the number [x] under [key], and [x] is not [NaN]. *)
Definition has_value (geoJsonData : GeoJson) (key : string) (x : number) : Prop :=
  ∃ f, f ∈ features geoJsonData
       ∧ properties f !! key = Some (JNum x)
       ∧ Number.isNaN x = false.

(** No element of a list of numbers is [NaN]. *)
Definition no_NaN (args : list number) : Prop :=
  Forall (λ x, Number.isNaN x = false) args.

(** Reading a style expression back.  A [case] expression with one condition
    is [["case", condition, output, fallback]]; an [interpolate] expression
    is [["interpolate", interpolation, input, in_1, out_1, ..., in_n, out_n]]
    and has [n] stops. *)
Definition case_parts (e : jsval) : option (jsval * jsval * jsval) :=
  match e with
  | JArr [JStr op; condition; output; fallback] =>
      if String.eqb op "case" then Some (condition, output, fallback) else None
  | _ => None
  end.

Fixpoint stop_pairs (args : list jsval) : option (list (jsval * jsval)) :=
  match args with
  | [] => Some []
  | input :: output :: rest => cons (input, output) <$> stop_pairs rest
  | [_] => None
  end.

Record Interpolate : Type := {
  interpolation : jsval;
  input : jsval;
  stops : list (jsval * jsval)
}.

Definition interpolate_parts (e : jsval) : option Interpolate :=
  match e with
  | JArr (JStr op :: interpolation :: input :: rest) =>
      if String.eqb op "interpolate" then
        Build_Interpolate interpolation input <$> stop_pairs rest
      else None
  | _ => None
  end.

(** The renderer's evaluation of the operators the module emits in
    conditions and inputs, for a feature with properties [props] and feature
    state [state]: literals, [get] ([null] when the property is missing),
    [feature-state] ([null] when unset), [coalesce] (the first non-null
    argument) and [boolean] (the first argument that is a boolean). *)
Fixpoint eval (props state : gmap string jsval) (e : jsval) {struct e}
  : option jsval :=
  match e with
  | JNull | JBool _ | JNum _ | JStr _ => Some e
  | JArr (JStr op :: args) =>
      if String.eqb op "get" then
        match args with
        | [JStr key] => Some (default JNull (props !! key))
        | _ => None
        end
      else if String.eqb op "feature-state" then
        match args with
        | [JStr key] => Some (default JNull (state !! key))
        | _ => None
        end
      else if String.eqb op "coalesce" then
        (fix first_non_null (args : list jsval) : option jsval :=
           match args with
           | [] => Some JNull
           | a :: rest =>
               match eval props state a with
               | Some JNull => first_non_null rest
               | r => r
               end
           end) args
      else if String.eqb op "boolean" then
        (fix first_boolean (args : list jsval) : option jsval :=
           match args with
           | [] => None
           | a :: rest =>
               match eval props state a with
               | Some (JBool b) => Some (JBool b)
               | Some _ => first_boolean rest
               | None => None
               end
           end) args
      else None
  | _ => None
  end.

(** The branch a one-condition [case] expression selects. *)
Definition case_select (props state : gmap string jsval) (e : jsval)
  : option jsval :=
  match case_parts e with
  | Some (condition, output, fallback) =>
      match eval props state condition with
      | Some (JBool true) => Some output
      | Some (JBool false) => Some fallback
      | _ => None
      end
  | None => None
  end.

(** The feature's hover state is set. *)
Definition hovered (state : gmap string jsval) : bool :=
  match state !! "hover" with
  | Some (JBool true) => true
  | _ => false
  end.

(** The scale [getDynamicFillColorExpression] configures for a range. *)
Definition lab_scale (minValue maxValue : number) : Scale :=
  {| scale_colors := ["#add8e6"; "#4682b4"; "#00008b"];
     scale_domain := [minValue; maxValue];
     scale_mode := "lab" |}.

(** The colour written at a stop: brightened for a hovered feature. *)
Definition stop_color `{Chroma} (state : gmap string jsval) (c : Color) : string :=
  if hovered state then hex (brighten c) else hex c.

(** The input both interpolations of the fill colour read. *)
Definition statistic_input (statisticKey : string) : jsval :=
  JArr [JStr "coalesce"; JArr [JStr "get"; JStr statisticKey]; JNum Number.zero].

(** The claim that the branch selected for a feature is a three-stop
    interpolation. *)
Definition selects_three_stops (props state : gmap string jsval) (e : jsval)
  : Prop :=
  ∃ branch ip,
    case_select props state e = Some branch
    ∧ interpolate_parts branch = Some ip
    ∧ length (stops ip) = 3%nat.

(** The registry holds a layer, or a source, under [id]. *)
Definition has_layer (map : Map) (id : string) : Prop :=
  ∃ l, l ∈ layers (style map) ∧ layer_id l = id.

Definition has_source (map : Map) (id : string) : Prop :=
  is_Some (sources (style map) !! id).

(** A layer that is not of the label type. *)
Definition not_symbol (layer : Layer) : Prop := layer_type layer ≠ "symbol".

(** Every [removeLayer] call of a call sequence comes before every
    [removeSource] call. *)
Definition layers_before_sources (ops : list MapCall) : Prop :=
  ∀ (i j : nat) a b,
    ops !! i = Some (RemoveSource a) → ops !! j = Some (RemoveLayer b) → (j < i)%nat.

(** ** Sample data *)

Definition feature_with (key : string) (v : jsval) : Feature :=
  {| properties := {[ key := v ]} |}.

Definition feature_without : Feature := {| properties := ∅ |}.

Definition num (z : Z) : jsval := JNum (Number.of_Z z).

(** Five municipalities: populations 5 and 9, one without the statistic, one
    with a text value, one with [NaN]. *)
Definition sample_mixed : GeoJson :=
  {| features := [ feature_with "aantalInwoners" (num 5);
                   feature_without;
                   feature_with "aantalInwoners" (JStr "n/a");
                   feature_with "aantalInwoners" (num 9);
                   feature_with "aantalInwoners" (JNum Number.NaN) ] |}.

Definition sample_constant : GeoJson :=
  {| features := [ feature_with "aantalInwoners" (num 7);
                   feature_with "aantalInwoners" JNull;
                   feature_with "aantalInwoners" (num 7) ] |}.

Definition sample_no_numbers : GeoJson :=
  {| features := [ feature_without;
                   feature_with "aantalInwoners" (JStr "n/a");
                   feature_with "naam" (JStr "Utrecht") ] |}.

Definition sample_map : Map :=
  {| style :=
       {| layers := [ {| layer_id := "water"; layer_type := "fill" |};
                      {| layer_id := "municipalities-fill"; layer_type := "fill" |};
                      {| layer_id := "place-labels"; layer_type := "symbol" |};
                      {| layer_id := "poi-labels"; layer_type := "symbol" |} ];
          sources := {[ "municipalities" := {| source_type := "geojson" |};
                        "composite" := {| source_type := "vector" |} ]} |};
     calls := [] |}.

Definition sample_map_no_labels : Map :=
  {| style :=
       {| layers := [ {| layer_id := "water"; layer_type := "fill" |};
                      {| layer_id := "roads"; layer_type := "line" |} ];
          sources := {[ "composite" := {| source_type := "vector" |} ]} |};
     calls := [] |}.

(** The data of [sample_mixed] in another order, with one value twice. *)
Definition sample_mixed_shuffled : GeoJson :=
  {| features := [ feature_with "aantalInwoners" (num 9);
                   feature_with "aantalInwoners" (JStr "n/a");
                   feature_with "aantalInwoners" (num 5);
                   feature_with "aantalInwoners" (num 5);
                   feature_without ] |}.

(** A stand-in for the colour library: a colour is the text of the scale
    position it was taken from. *)
Definition sample_chroma : Chroma :=
  {| Color := string;
     scale_at := λ s v,
       if Number.strict_eq v (default Number.zero (head (scale_domain s)))
       then default "" (head (scale_colors s))
       else default "" (last (scale_colors s));
     brighten := λ c, c +:+ "+";
     hex := λ c, c |}.

(** An engine that accepts at most 65536 arguments in one call, with the
    colour library loaded. *)
Definition sample_environment : Environment :=
  {| max_arguments := Some 65536%N;
     chroma_global := Some (returning sample_chroma) |}.

(** A colour library whose scale throws. *)
Definition sample_throwing_chroma : ChromaLib :=
  {| LibColor := string;
     scale_call := λ _ _, Abrupt LibraryError;
     brighten_call := λ c, Normal c;
     hex_call := λ c, Normal c |}.


(** * Properties *)

(** ** The order on numbers *)

Lemma pos_compare_cont_Eq (p q : positive) :
  Pos.compare_cont Eq p q = (p ?= q)%positive.
Proof. reflexivity. Qed.

(** Case analysis on the integer comparisons inside [SFcompare]. *)
Ltac cmp_cases :=
  repeat match goal with
  | H : context [Pos.compare_cont Eq ?p ?q] |- _ =>
      rewrite (pos_compare_cont_Eq p q) in H
  | |- context [Pos.compare_cont Eq ?p ?q] =>
      rewrite (pos_compare_cont_Eq p q)
  | H : context [(?a ?= ?b)%Z] |- _ => destruct (Z.compare_spec a b)
  | |- context [(?a ?= ?b)%Z] => destruct (Z.compare_spec a b)
  | H : context [(?p ?= ?q)%positive] |- _ => destruct (Pos.compare_spec p q)
  | |- context [(?p ?= ?q)%positive] => destruct (Pos.compare_spec p q)
  end; simpl in *; try done; try lia.

Ltac float_cases x := destruct x as [[]|[]| |[] ? ?]; simpl in *; try done.

Ltac unfold_cmp :=
  unfold Number.le, Number.lt, Number.gt, Number.strict_eq,
    SFleb, SFltb, SFeqb in *.

Example one_is_SFone : Number.one = SFone Number.prec Number.emax.
Proof. reflexivity. Qed.

Example zero_strict_eq_neg_zero : Number.strict_eq Number.zero Number.neg_zero = true.
Proof. reflexivity. Qed.

Lemma le_refl (x : number) : Number.isNaN x = false → Number.le x x = true.
Proof. unfold_cmp. float_cases x; cmp_cases. Qed.

Lemma le_trans (x y z : number) :
  Number.le x y = true → Number.le y z = true → Number.le x z = true.
Proof. unfold_cmp. float_cases x; float_cases y; float_cases z; cmp_cases. Qed.

Lemma le_total (x y : number) :
  Number.isNaN x = false → Number.isNaN y = false →
  Number.lt x y = false → Number.le y x = true.
Proof. unfold_cmp. float_cases x; float_cases y; cmp_cases. Qed.

Lemma lt_le (x y : number) : Number.lt x y = true → Number.le x y = true.
Proof. unfold_cmp. destruct (SFcompare x y) as [[]|]; done. Qed.

Lemma strict_eq_le (x y : number) :
  Number.strict_eq x y = true ↔ Number.le x y = true ∧ Number.le y x = true.
Proof.
  unfold_cmp. split.
  - float_cases x; float_cases y; cmp_cases.
  - intros [H1 H2]. float_cases x; float_cases y; cmp_cases.
Qed.

Lemma le_Infinity (x : number) :
  Number.isNaN x = false → Number.le x Number.Infinity = true.
Proof. float_cases x. Qed.

Lemma NegInfinity_le (x : number) :
  Number.isNaN x = false → Number.le Number.NegInfinity x = true.
Proof. float_cases x. Qed.

Lemma Infinity_le (x : number) :
  Number.le Number.Infinity x = true → x = Number.Infinity.
Proof. float_cases x. Qed.

Lemma le_NegInfinity (x : number) :
  Number.le x Number.NegInfinity = true → x = Number.NegInfinity.
Proof. float_cases x. Qed.

(** Numbers that are [===] are the same double, except for the two zeros,
    and adding one does not tell those apart. *)
Lemma strict_eq_add_one (x y : number) :
  Number.strict_eq x y = true → Number.add x Number.one = Number.add y Number.one.
Proof.
  unfold_cmp.
  float_cases x; float_cases y; cmp_cases;
    try (apply Pos.compare_eq in H0); subst; try done.
Qed.

(** ** [Math.min] and [Math.max] *)

Lemma existsb_isNaN_no_NaN (args : list number) :
  no_NaN args → existsb Number.isNaN args = false.
Proof.
  induction 1 as [|x l Hx _ IH]; simpl; [done|]. by rewrite Hx, IH.
Qed.

Lemma min_step_spec (lowest n : number) :
  Number.isNaN lowest = false → Number.isNaN n = false →
  let r := Math.min_step lowest n in
  (r = lowest ∨ r = n) ∧ Number.le r lowest = true ∧ Number.le r n = true.
Proof.
  intros Hl Hn. unfold Math.min_step.
  destruct (Number.is_neg_zero n && Number.is_pos_zero lowest) eqn:Hz.
  - split; [by right|]. split; [|by apply le_refl].
    float_cases n; float_cases lowest.
  - destruct (Number.lt n lowest) eqn:Hlt.
    + split; [by right|]. split; [by apply lt_le | by apply le_refl].
    + split; [by left|]. split; [by apply le_refl | by apply le_total].
Qed.

Lemma max_step_spec (highest n : number) :
  Number.isNaN highest = false → Number.isNaN n = false →
  let r := Math.max_step highest n in
  (r = highest ∨ r = n) ∧ Number.le highest r = true ∧ Number.le n r = true.
Proof.
  intros Hh Hn. unfold Math.max_step.
  destruct (Number.is_pos_zero n && Number.is_neg_zero highest) eqn:Hz.
  - split; [by right|]. split; [|by apply le_refl].
    float_cases n; float_cases highest.
  - unfold Number.gt. fold (Number.lt highest n).
    destruct (Number.lt highest n) eqn:Hlt.
    + split; [by right|]. split; [by apply lt_le | by apply le_refl].
    + split; [by left|]. split; [by apply le_refl | by apply le_total].
Qed.

Lemma fold_min_spec (args : list number) (lowest : number) :
  no_NaN args → Number.isNaN lowest = false →
  let r := fold_left Math.min_step args lowest in
  (r = lowest ∨ r ∈ args)
  ∧ Number.le r lowest = true
  ∧ ∀ v, v ∈ args → Number.le r v = true.
Proof.
  intros Hargs. revert lowest.
  induction Hargs as [|n rest Hn _ IH]; intros lowest Hl; simpl.
  - split; [by left|]. split; [by apply le_refl|]. intros v Hv. inversion Hv.
  - destruct (min_step_spec lowest n Hl Hn) as (Hor & Hle1 & Hle2).
    assert (Number.isNaN (Math.min_step lowest n) = false) as Hs
      by (destruct Hor as [-> | ->]; done).
    destruct (IH _ Hs) as (Hor' & Hle' & Hall).
    split; [|split].
    + destruct Hor' as [-> | Hin]; [|right; by right].
      destruct Hor as [-> | ->]; [by left | right; by left].
    + by eapply le_trans.
    + intros v Hv. apply elem_of_cons in Hv as [-> | Hv]; [|by apply Hall].
      by eapply le_trans.
Qed.

Lemma fold_max_spec (args : list number) (highest : number) :
  no_NaN args → Number.isNaN highest = false →
  let r := fold_left Math.max_step args highest in
  (r = highest ∨ r ∈ args)
  ∧ Number.le highest r = true
  ∧ ∀ v, v ∈ args → Number.le v r = true.
Proof.
  intros Hargs. revert highest.
  induction Hargs as [|n rest Hn _ IH]; intros highest Hh; simpl.
  - split; [by left|]. split; [by apply le_refl|]. intros v Hv. inversion Hv.
  - destruct (max_step_spec highest n Hh Hn) as (Hor & Hle1 & Hle2).
    assert (Number.isNaN (Math.max_step highest n) = false) as Hs
      by (destruct Hor as [-> | ->]; done).
    destruct (IH _ Hs) as (Hor' & Hle' & Hall).
    split; [|split].
    + destruct Hor' as [-> | Hin]; [|right; by right].
      destruct Hor as [-> | ->]; [by left | right; by left].
    + by eapply le_trans.
    + intros v Hv. apply elem_of_cons in Hv as [-> | Hv]; [|by apply Hall].
      by eapply le_trans.
Qed.

(** On a non-empty list without [NaN], [Math.min] is an element of the list
    and a lower bound of it. *)
Lemma Math_min_spec (args : list number) :
  no_NaN args → args ≠ [] →
  Math.min args ∈ args ∧ ∀ v, v ∈ args → Number.le (Math.min args) v = true.
Proof.
  intros Hargs Hne. unfold Math.min. rewrite existsb_isNaN_no_NaN by done.
  destruct (fold_min_spec args Number.Infinity Hargs eq_refl) as (Hor & _ & Hall).
  split; [|done].
  destruct Hor as [Heq | Hin]; [|done].
  destruct args as [|v rest]; [done|].
  rewrite Heq in *.
  assert (v = Number.Infinity) as -> by (apply Infinity_le, Hall; by left).
  by left.
Qed.

Lemma Math_max_spec (args : list number) :
  no_NaN args → args ≠ [] →
  Math.max args ∈ args ∧ ∀ v, v ∈ args → Number.le v (Math.max args) = true.
Proof.
  intros Hargs Hne. unfold Math.max. rewrite existsb_isNaN_no_NaN by done.
  destruct (fold_max_spec args Number.NegInfinity Hargs eq_refl) as (Hor & _ & Hall).
  split; [|done].
  destruct Hor as [Heq | Hin]; [|done].
  destruct args as [|v rest]; [done|].
  rewrite Heq in *.
  assert (v = Number.NegInfinity) as -> by (apply le_NegInfinity, Hall; by left).
  by left.
Qed.

(** ** [getMinMaxFromGeoJson] *)

(** The match in [keep_numeric] is the [typeof] test of the source. *)
Lemma typeof_number (val : jsval) :
  String.eqb (typeof val) "number" = true ↔ ∃ x, val = JNum x.
Proof.
  split; [|by intros [x ->]].
  destruct val; simpl; try done. by eexists.
Qed.

Lemma keep_numeric_Some (val : jsval) (x : number) :
  keep_numeric val = Some x ↔ val = JNum x ∧ Number.isNaN x = false.
Proof.
  split.
  - destruct val as [| | |y| | |]; simpl; try done.
    destruct (Number.isNaN y) eqn:Hy; simpl; [done|]. by intros [= ->].
  - intros [-> Hx]. simpl. by rewrite Hx.
Qed.

(** The values the function collects are exactly the numeric values of the
    collection: missing, non-numeric and [NaN] entries are left out. *)
Lemma elem_of_numeric_values (d : GeoJson) (key : string) (x : number) :
  x ∈ numeric_values d key ↔ has_value d key x.
Proof.
  unfold numeric_values, has_value.
  change (map ?g ?l) with (g <$> l).
  rewrite list_elem_of_omap. split.
  - intros (val & Hval & Hkeep).
    apply list_elem_of_fmap in Hval as (f & -> & Hf).
    apply keep_numeric_Some in Hkeep as [Hget Hx].
    exists f. split; [done|]. split; [|done].
    unfold get_property in Hget.
    destruct (properties f !! key) as [v|]; simpl in Hget; by subst.
  - intros (f & Hf & Hget & Hx).
    exists (JNum x). split; [|by apply keep_numeric_Some].
    apply list_elem_of_fmap. exists f. split; [|done].
    unfold get_property. by rewrite Hget.
Qed.

Lemma numeric_values_no_NaN (d : GeoJson) (key : string) :
  no_NaN (numeric_values d key).
Proof.
  apply Forall_forall. intros x Hx.
  apply elem_of_numeric_values in Hx as (_ & _ & _ & Hx). done.
Qed.

Lemma length_eqb_0 {A : Type} (l : list A) :
  Nat.eqb (length l) 0 = true ↔ l = [].
Proof. destruct l; simpl; split; done. Qed.

(** What the function returns once at least one value was collected. *)
Lemma getMinMax_nonempty (d : GeoJson) (key : string) :
  numeric_values d key ≠ [] →
  let m := Math.min (numeric_values d key) in
  let M := Math.max (numeric_values d key) in
  has_value d key m ∧ has_value d key M
  ∧ (∀ v, has_value d key v → Number.le m v = true ∧ Number.le v M = true)
  ∧ getMinMaxFromGeoJson d key =
      if Number.strict_eq m M then (m, Number.add m Number.one) else (m, M).
Proof.
  intros Hne m M.
  destruct (Math_min_spec _ (numeric_values_no_NaN d key) Hne) as [Hm Hlow].
  destruct (Math_max_spec _ (numeric_values_no_NaN d key) Hne) as [HM Hup].
  split; [by apply elem_of_numeric_values|].
  split; [by apply elem_of_numeric_values|].
  split.
  - intros v Hv%elem_of_numeric_values. split; [by apply Hlow | by apply Hup].
  - unfold getMinMaxFromGeoJson.
    destruct (Nat.eqb (length (numeric_values d key)) 0) eqn:Hlen; [|done].
    by apply length_eqb_0 in Hlen.
Qed.

(** C1: when the collection has two numeric values for the key that differ,
    the function returns [(m, M)] where [m] and [M] are numeric values of the
    collection, [m] is below and [M] above every numeric value of it;
    missing, non-numeric and [NaN] entries play no part. *)
Theorem getMinMax_distinct_values (d : GeoJson) (key : string) :
  (∃ x y, has_value d key x ∧ has_value d key y ∧ Number.strict_eq x y = false) →
  ∃ m M,
    getMinMaxFromGeoJson d key = (m, M)
    ∧ has_value d key m ∧ has_value d key M
    ∧ ∀ v, has_value d key v → Number.le m v = true ∧ Number.le v M = true.
Proof.
  intros (x & y & Hx & Hy & Hxy).
  assert (numeric_values d key ≠ []) as Hne.
  { apply elem_of_numeric_values in Hx. intros Heq. rewrite Heq in Hx.
    inversion Hx. }
  destruct (getMinMax_nonempty d key Hne) as (Hm & HM & Hbounds & Hres).
  exists (Math.min (numeric_values d key)), (Math.max (numeric_values d key)).
  split; [|done].
  rewrite Hres.
  destruct (Number.strict_eq (Math.min _) _) eqn:Heq; [|done].
  exfalso. apply strict_eq_le in Heq as [_ HMm].
  destruct (Hbounds x Hx) as [Hmx HxM], (Hbounds y Hy) as [Hmy HyM].
  assert (Number.strict_eq x y = true); [|congruence].
  apply strict_eq_le. split.
  - eapply le_trans; [exact HxM|]. by eapply le_trans.
  - eapply le_trans; [exact HyM|]. by eapply le_trans.
Qed.

Lemma getMinMax_distinct_values_witness :
  ∃ m M,
    getMinMaxFromGeoJson sample_mixed "aantalInwoners" = (m, M)
    ∧ has_value sample_mixed "aantalInwoners" m
    ∧ has_value sample_mixed "aantalInwoners" M
    ∧ ∀ v, has_value sample_mixed "aantalInwoners" v →
           Number.le m v = true ∧ Number.le v M = true.
Proof.
  apply getMinMax_distinct_values.
  exists (Number.of_Z 5), (Number.of_Z 9).
  split; [|split; [|reflexivity]].
  - exists (feature_with "aantalInwoners" (num 5)).
    split; [repeat constructor|]. split; reflexivity.
  - exists (feature_with "aantalInwoners" (num 9)).
    split; [repeat constructor|]. split; reflexivity.
Defined.

Example getMinMax_sample_mixed :
  getMinMaxFromGeoJson sample_mixed "aantalInwoners"
    = (Number.of_Z 5, Number.of_Z 9).
Proof. vm_compute. reflexivity. Qed.

Lemma numeric_values_nil (d : GeoJson) (key : string) :
  (∀ x, ¬ has_value d key x) → numeric_values d key = [].
Proof.
  intros Hnone.
  destruct (numeric_values d key) as [|x rest] eqn:Hvals; [done|].
  destruct (Hnone x). apply elem_of_numeric_values. rewrite Hvals. by left.
Qed.

Lemma getMinMax_nil (d : GeoJson) (key : string) :
  numeric_values d key = [] →
  getMinMaxFromGeoJson d key = (Number.zero, Number.zero).
Proof. intros Hnil. unfold getMinMaxFromGeoJson. by rewrite Hnil. Qed.

(** C2: when no feature has a numeric value for the key, the function
    returns [(0, 0)]. *)
Theorem getMinMax_no_numeric_values (d : GeoJson) (key : string) :
  (∀ x, ¬ has_value d key x) →
  getMinMaxFromGeoJson d key = (Number.zero, Number.zero).
Proof. intros Hnone. by apply getMinMax_nil, numeric_values_nil. Qed.

(** C3: when the collection has a numeric value for the key and all of them
    are [===] to [c], the function returns [(m, c + 1)], where [m] is a
    numeric value of the collection with [m === c]. *)
Theorem getMinMax_constant_values (d : GeoJson) (key : string) (c : number) :
  (∃ x, has_value d key x) →
  (∀ x, has_value d key x → Number.strict_eq x c = true) →
  ∃ m,
    getMinMaxFromGeoJson d key = (m, Number.add c Number.one)
    ∧ Number.strict_eq m c = true
    ∧ has_value d key m.
Proof.
  intros [x Hx] Hall.
  assert (numeric_values d key ≠ []) as Hne.
  { apply elem_of_numeric_values in Hx. intros Heq. rewrite Heq in Hx.
    inversion Hx. }
  destruct (getMinMax_nonempty d key Hne) as (Hm & HM & _ & Hres).
  exists (Math.min (numeric_values d key)).
  split; [|split; [by apply Hall | done]].
  rewrite Hres.
  pose proof (Hall _ Hm) as Hmc. pose proof (Hall _ HM) as HMc.
  assert (Number.strict_eq (Math.min (numeric_values d key))
            (Math.max (numeric_values d key)) = true) as ->.
  { apply strict_eq_le in Hmc as [? ?], HMc as [? ?].
    apply strict_eq_le. split; by eapply le_trans. }
  f_equal. by apply strict_eq_add_one.
Qed.

(** The numeric values of a listed collection, by inspection of its
    features. *)
Ltac inspect_features H :=
  let f := fresh "f" in
  let Hf := fresh "Hf" in
  let Hget := fresh "Hget" in
  destruct H as (f & Hf & Hget & _);
  apply list_elem_of_In in Hf; simpl in Hf;
  repeat (destruct Hf as [<- | Hf]; [vm_compute in Hget|]);
  try contradiction; try discriminate.

Lemma getMinMax_no_numeric_values_witness :
  getMinMaxFromGeoJson sample_no_numbers "aantalInwoners"
    = (Number.zero, Number.zero).
Proof.
  apply getMinMax_no_numeric_values.
  intros x Hx. inspect_features Hx.
Defined.

Lemma getMinMax_constant_values_witness :
  ∃ m,
    getMinMaxFromGeoJson sample_constant "aantalInwoners"
      = (m, Number.add (Number.of_Z 7) Number.one)
    ∧ Number.strict_eq m (Number.of_Z 7) = true
    ∧ has_value sample_constant "aantalInwoners" m.
Proof.
  apply getMinMax_constant_values.
  - exists (Number.of_Z 7), (feature_with "aantalInwoners" (num 7)).
    split; [repeat constructor|]. split; reflexivity.
  - intros x Hx. inspect_features Hx; by injection Hget as <-.
Defined.

Example getMinMax_sample_constant :
  getMinMaxFromGeoJson sample_constant "aantalInwoners"
    = (Number.of_Z 7, Number.of_Z 8).
Proof. vm_compute. reflexivity. Qed.

(** The artificial range is built with the addition of doubles: from
    [2^53] on, and at the infinities, [c + 1] is [c] again. *)
Example getMinMax_constant_large :
  getMinMaxFromGeoJson
    {| features := [feature_with "n" (num 9007199254740992)] |} "n"
    = (Number.of_Z 9007199254740992, Number.of_Z 9007199254740992).
Proof. vm_compute. reflexivity. Qed.

(** The two zeros are [===]: a collection holding [0] and [-0] counts as
    constant, and the lower bound returned is [-0]. *)
Example getMinMax_both_zeros :
  getMinMaxFromGeoJson
    {| features := [feature_with "n" (JNum Number.zero);
                    feature_with "n" (JNum Number.neg_zero)] |} "n"
    = (Number.neg_zero, Number.one).
Proof. vm_compute. reflexivity. Qed.

(** ** [getDynamicFillColorExpression] *)

Section FillColor.

Context `{Chroma}.

Lemma hover_condition (props state : gmap string jsval) :
  eval props state
    (JArr [JStr "boolean"; JArr [JStr "feature-state"; JStr "hover"]; JBool false])
  = Some (JBool (hovered state)).
Proof.
  unfold hovered. simpl.
  destruct (state !! "hover") as [[| |[]| | | |]|]; reflexivity.
Qed.

(** C4, as the code has it: the expression is a [case] on the feature's
    hover state; for every feature it selects a linear interpolation over
    the statistic with two stops, at the minimum and the maximum returned by
    [getMinMaxFromGeoJson]; the stop colours are those of the three-colour
    lab-mode scale over that range, brightened when the hover state is set
    and as they are otherwise. *)
Theorem fill_color_expression_shape (d : GeoJson) (key : string)
    (props state : gmap string jsval) :
  let '(m, M) := getMinMaxFromGeoJson d key in
  ∃ branch,
    case_select props state (getDynamicFillColorExpression d key) = Some branch
    ∧ interpolate_parts branch =
        Some {| interpolation := JArr [JStr "linear"];
                input := statistic_input key;
                stops :=
                  [ (JNum m, JStr (stop_color state (scale_at (lab_scale m M) m)));
                    (JNum M, JStr (stop_color state (scale_at (lab_scale m M) M))) ] |}.
Proof.
  unfold getDynamicFillColorExpression.
  destruct (getMinMaxFromGeoJson d key) as [m M].
  unfold case_select, case_parts.
  change (String.eqb "case" "case") with true. cbv iota.
  rewrite hover_condition. unfold stop_color.
  destruct (hovered state); eexists; (split; [reflexivity|]); reflexivity.
Qed.

(** C9: both branches of the expression read the statistic as
    [["coalesce", ["get", statisticKey], 0]]; for a feature of the collection
    that lacks the property this input evaluates to [0], whatever range was
    extracted. *)
Theorem fill_color_missing_reads_zero (d : GeoJson) (key : string) :
  ∃ condition hover_branch plain_branch ih ip,
    case_parts (getDynamicFillColorExpression d key)
      = Some (condition, hover_branch, plain_branch)
    ∧ interpolate_parts hover_branch = Some ih
    ∧ interpolate_parts plain_branch = Some ip
    ∧ input ih = statistic_input key
    ∧ input ip = statistic_input key
    ∧ ∀ f state,
        f ∈ features d → properties f !! key = None →
        eval (properties f) state (statistic_input key) = Some (JNum Number.zero).
Proof.
  unfold getDynamicFillColorExpression.
  destruct (getMinMaxFromGeoJson d key) as [m M].
  do 5 eexists.
  split; [reflexivity|]. split; [reflexivity|]. split; [reflexivity|].
  split; [reflexivity|]. split; [reflexivity|].
  intros f state _ Hmissing. simpl. by rewrite Hmissing.
Qed.

End FillColor.

(** The claim of C4 as the specification words it fails: the interpolation
    selected for a hovered feature has two stops, not three. *)
Lemma fill_color_not_three_stops :
  ¬ selects_three_stops ∅ {[ "hover" := JBool true ]}
      (@getDynamicFillColorExpression sample_chroma sample_mixed "aantalInwoners").
Proof.
  intros (branch & ip & Hsel & Hip & Hlen).
  vm_compute in Hsel. injection Hsel as <-.
  vm_compute in Hip. injection Hip as <-.
  discriminate Hlen.
Qed.

Example fill_color_sample_hovered :
  (ip ← (case_select ∅ {[ "hover" := JBool true ]}
           (@getDynamicFillColorExpression sample_chroma sample_mixed "aantalInwoners")
         ≫= interpolate_parts);
   Some (stops ip))
  = Some [ (num 5, JStr "#add8e6+"); (num 9, JStr "#00008b+") ].
Proof. vm_compute. reflexivity. Qed.

Lemma fill_color_missing_reads_zero_witness :
  (∃ condition hover_branch plain_branch ih ip,
    case_parts (@getDynamicFillColorExpression sample_chroma sample_mixed "aantalInwoners")
      = Some (condition, hover_branch, plain_branch)
    ∧ interpolate_parts hover_branch = Some ih
    ∧ interpolate_parts plain_branch = Some ip
    ∧ input ih = statistic_input "aantalInwoners"
    ∧ input ip = statistic_input "aantalInwoners"
    ∧ eval (properties feature_without) ∅ (statistic_input "aantalInwoners")
        = Some (JNum Number.zero))
  ∧ Number.lt Number.zero
      (fst (getMinMaxFromGeoJson sample_mixed "aantalInwoners")) = true.
Proof.
  split; [|reflexivity].
  destruct (@fill_color_missing_reads_zero sample_chroma sample_mixed "aantalInwoners")
    as (c & hb & pb & ih & ip & H1 & H2 & H3 & H4 & H5 & H6).
  exists c, hb, pb, ih, ip. repeat (split; [assumption|]).
  apply H6; [repeat constructor | reflexivity].
Defined.

(** ** [findFirstSymbolLayer] *)

Lemma first_symbol_none (ls : list Layer) :
  Forall not_symbol ls → first_symbol ls = None.
Proof.
  induction 1 as [|l ls Hl _ IH]; simpl; [done|].
  destruct (String.eqb_spec (layer_type l) "symbol"); done.
Qed.

Lemma first_symbol_app (before : list Layer) (l : Layer) (after : list Layer) :
  Forall not_symbol before → layer_type l = "symbol" →
  first_symbol (before ++ l :: after) = Some (layer_id l).
Proof.
  intros Hbefore Hl.
  induction Hbefore as [|b before Hb _ IH]; simpl.
  - by rewrite Hl.
  - destruct (String.eqb_spec (layer_type b) "symbol"); done.
Qed.

(** C5: the lookup returns [null] when the layer list is empty or holds no
    symbol layer; when the list is [before ++ l :: after] with no symbol
    layer in [before] and [l] a symbol layer, it returns the id of [l]. *)
Theorem findFirstSymbolLayer_first_match (map : Map) :
  (layers (getStyle map) = [] → findFirstSymbolLayer map = None)
  ∧ (Forall not_symbol (layers (getStyle map)) → findFirstSymbolLayer map = None)
  ∧ (∀ before l after,
       layers (getStyle map) = before ++ l :: after →
       Forall not_symbol before → layer_type l = "symbol" →
       findFirstSymbolLayer map = Some (layer_id l)).
Proof.
  unfold findFirstSymbolLayer. split; [|split].
  - by intros ->.
  - apply first_symbol_none.
  - intros before l after -> Hbefore Hl. by apply first_symbol_app.
Qed.

(** The two cases are the only ones: a list either has no symbol layer or
    splits at its first one. *)
Lemma first_symbol_split (ls : list Layer) :
  Forall not_symbol ls
  ∨ ∃ before l after,
      ls = before ++ l :: after ∧ Forall not_symbol before
      ∧ layer_type l = "symbol".
Proof.
  induction ls as [|l ls IH]; [by left|].
  destruct (decide (layer_type l = "symbol")) as [Hl | Hl].
  - right. exists [], l, ls. by repeat split.
  - destruct IH as [Hall | (before & l' & after & -> & Hbefore & Hl')].
    + left. by constructor.
    + right. exists (l :: before), l', after. repeat split; [|done].
      by constructor.
Qed.

Lemma findFirstSymbolLayer_first_match_witness :
  findFirstSymbolLayer {| style := {| layers := []; sources := ∅ |}; calls := [] |} = None
  ∧ findFirstSymbolLayer sample_map_no_labels = None
  ∧ findFirstSymbolLayer sample_map = Some "place-labels".
Proof.
  split; [|split].
  - by apply (findFirstSymbolLayer_first_match
                {| style := {| layers := []; sources := ∅ |}; calls := [] |}).
  - apply (proj1 (proj2 (findFirstSymbolLayer_first_match sample_map_no_labels))).
    repeat constructor; discriminate.
  - apply (proj2 (proj2 (findFirstSymbolLayer_first_match sample_map))
             [ {| layer_id := "water"; layer_type := "fill" |};
               {| layer_id := "municipalities-fill"; layer_type := "fill" |} ]
             {| layer_id := "place-labels"; layer_type := "symbol" |}
             [ {| layer_id := "poi-labels"; layer_type := "symbol" |} ]).
    + reflexivity.
    + repeat constructor; discriminate.
    + reflexivity.
Defined.

(** ** [cleanupLayers] *)

Lemma find_has_id_None (id : string) (ls : list Layer) :
  find (has_id id) ls = None ↔ ∀ l, l ∈ ls → layer_id l ≠ id.
Proof.
  unfold has_id. induction ls as [|l ls IH]; simpl.
  - split; [|done]. intros _ l Hl. inversion Hl.
  - destruct (String.eqb_spec (layer_id l) id) as [Heq | Hne].
    + split; [done|]. intros Hall. destruct (Hall l); [by left | done].
    + rewrite IH. split.
      * intros Hall l' [-> | Hl']%elem_of_cons; [done | by apply Hall].
      * intros Hall l' Hl'. apply Hall. by right.
Qed.

Lemma filter_not_listed_nil (ls : list Layer) :
  filter (λ l, layer_id l ∉ ([] : list string)) ls = ls.
Proof.
  induction ls as [|l ls IH]; [done|].
  rewrite filter_cons_True by apply not_elem_of_nil. by rewrite IH.
Qed.

(** Removing the layers named [id], then those named in [ids]. *)
Lemma filter_not_listed_cons (id : string) (ids : list string) (ls : list Layer) :
  filter (λ l, layer_id l ∉ ids) (filter (λ l, layer_id l ≠ id) ls)
  = filter (λ l, layer_id l ∉ id :: ids) ls.
Proof.
  rewrite list_filter_filter. apply list_filter_iff.
  intros l. rewrite not_elem_of_cons. tauto.
Qed.

(** No layer is named [id]: listing [id] changes nothing. *)
Lemma filter_not_listed_absent (id : string) (ids : list string) (ls : list Layer) :
  find (has_id id) ls = None →
  filter (λ l, layer_id l ∉ id :: ids) ls = filter (λ l, layer_id l ∉ ids) ls.
Proof.
  intros Hfind. pose proof (proj1 (find_has_id_None id ls) Hfind) as Habsent.
  clear Hfind. rewrite <- filter_not_listed_cons. f_equal.
  induction ls as [|l ls IH]; [done|].
  rewrite filter_cons_True by (apply Habsent; by left).
  f_equal. apply IH. intros l' Hl'. apply Habsent. by right.
Qed.

Lemma listed_cons (id : string) (removed ids : list string) :
  removed ⊆ ids → id :: removed ⊆ id :: ids.
Proof.
  intros Hsub x [-> | Hx]%elem_of_cons; [by left | right; by apply Hsub].
Qed.

Lemma listed_skip (id : string) (removed ids : list string) :
  removed ⊆ ids → removed ⊆ id :: ids.
Proof. intros Hsub x Hx. right. by apply Hsub. Qed.

Lemma forEach_cons {A : Type} (x : A) (rest : list A) (callback : A → Js unit)
    (map : Map) :
  forEach (x :: rest) callback map
  = match callback x map with
    | Return _ map' => forEach rest callback map'
    | Throw e => Throw e
    end.
Proof. reflexivity. Qed.

(** One round of the first loop: the guarded [removeLayer] never throws. *)
Lemma remove_layer_if_present (id : string) (map : Map) :
  (do l <- getLayer id; if truthy l then removeLayer id else ret tt) map
  = match find (has_id id) (layers (style map)) with
    | Some _ =>
        Return tt
          {| style := {| layers := filter (λ l, layer_id l ≠ id) (layers (style map));
                         sources := sources (style map) |};
             calls := calls map ++ [RemoveLayer id] |}
    | None => Return tt map
    end.
Proof.
  unfold bind, getLayer, removeLayer, ret.
  destruct (find (has_id id) (layers (style map))) eqn:Hfind; simpl;
    [by rewrite Hfind | done].
Qed.

(** One round of the second loop: the guarded [removeSource] never throws. *)
Lemma remove_source_if_present (id : string) (map : Map) :
  (do s <- getSource id; if truthy s then removeSource id else ret tt) map
  = match sources (style map) !! id with
    | Some _ =>
        Return tt
          {| style := {| layers := layers (style map);
                         sources := delete id (sources (style map)) |};
             calls := calls map ++ [RemoveSource id] |}
    | None => Return tt map
    end.
Proof.
  unfold bind, getSource, removeSource, ret.
  destruct (sources (style map) !! id) eqn:Hlook; simpl;
    [by rewrite Hlook | done].
Qed.

(** The first loop (lines 105-109): every listed layer is gone, the other
    layers keep their order, the sources are untouched, and the calls made
    are [removeLayer] calls on listed ids. *)
Lemma forEach_remove_layers (layerIds : list string) (map : Map) :
  ∃ removed,
    forEach layerIds (λ layerId,
      do l <- getLayer layerId;
      if truthy l then removeLayer layerId else ret tt) map
    = Return tt
        {| style := {| layers := filter (λ l, layer_id l ∉ layerIds)
                                   (layers (style map));
                       sources := sources (style map) |};
           calls := calls map ++ (RemoveLayer <$> removed) |}
    ∧ removed ⊆ layerIds.
Proof.
  revert map. induction layerIds as [|id ids IH]; intros map.
  - exists []. split; [|done]. destruct map as [[ls ss] cs]. simpl.
    unfold ret. by rewrite filter_not_listed_nil, app_nil_r.
  - rewrite forEach_cons, remove_layer_if_present.
    destruct (find (has_id id) (layers (style map))) as [l|] eqn:Hfind.
    + destruct (IH {| style := {| layers := filter (λ l, layer_id l ≠ id)
                                              (layers (style map));
                                  sources := sources (style map) |};
                      calls := calls map ++ [RemoveLayer id] |})
        as (removed & -> & Hsub).
      exists (id :: removed). simpl. split; [|by apply listed_cons].
      rewrite filter_not_listed_cons. by rewrite <- app_assoc.
    + destruct (IH map) as (removed & -> & Hsub).
      exists removed. split; [|by apply listed_skip].
      by rewrite filter_not_listed_absent.
Qed.

Lemma lookup_listed_delete (id k : string) (ids : list string)
    (ss : gmap string Source) :
  (if decide (k ∈ ids) then None else delete id ss !! k)
  = (if decide (k ∈ id :: ids) then None else ss !! k).
Proof.
  destruct (decide (k = id)) as [-> | Hne].
  - rewrite lookup_delete_eq.
    destruct (decide (id ∈ ids)), (decide (id ∈ id :: ids)) as [|Hnot];
      try done; destruct Hnot; by left.
  - rewrite lookup_delete_ne by done.
    destruct (decide (k ∈ ids)) as [Hin|Hnin],
             (decide (k ∈ id :: ids)) as [Hin'|Hnin']; try done.
    + destruct Hnin'. by right.
    + apply elem_of_cons in Hin' as [-> | Hin']; done.
Qed.

Lemma lookup_listed_absent (id k : string) (ids : list string)
    (ss : gmap string Source) :
  ss !! id = None →
  (if decide (k ∈ ids) then None else ss !! k)
  = (if decide (k ∈ id :: ids) then None else ss !! k).
Proof.
  intros Habsent.
  destruct (decide (k ∈ ids)) as [Hin|Hnin],
           (decide (k ∈ id :: ids)) as [Hin'|Hnin']; try done.
  - destruct Hnin'. by right.
  - apply elem_of_cons in Hin' as [-> | Hin']; done.
Qed.

(** The second loop (lines 112-116): every listed source is gone, the other
    sources and all layers are untouched, and the calls made are
    [removeSource] calls on listed ids. *)
Lemma forEach_remove_sources (sourceIds : list string) (map : Map) :
  ∃ removed map',
    forEach sourceIds (λ sourceId,
      do s <- getSource sourceId;
      if truthy s then removeSource sourceId else ret tt) map
    = Return tt map'
    ∧ layers (style map') = layers (style map)
    ∧ (∀ id, sources (style map') !! id =
             if decide (id ∈ sourceIds) then None else sources (style map) !! id)
    ∧ calls map' = calls map ++ (RemoveSource <$> removed)
    ∧ removed ⊆ sourceIds.
Proof.
  revert map. induction sourceIds as [|id ids IH]; intros map.
  - exists [], map. simpl. rewrite app_nil_r. by repeat split.
  - rewrite forEach_cons, remove_source_if_present.
    destruct (sources (style map) !! id) as [s|] eqn:Hlook.
    + destruct (IH {| style := {| layers := layers (style map);
                                  sources := delete id (sources (style map)) |};
                      calls := calls map ++ [RemoveSource id] |})
        as (removed & map' & -> & Hls & Hss & Hcs & Hsub).
      exists (id :: removed), map'. simpl in *.
      split; [done|]. split; [done|]. split; [|split; [|by apply listed_cons]].
      * intros k. rewrite Hss. apply lookup_listed_delete.
      * rewrite Hcs. by rewrite <- app_assoc.
    + destruct (IH map) as (removed & map' & -> & Hls & Hss & Hcs & Hsub).
      exists removed, map'.
      split; [done|]. split; [done|]. split; [|split; [done | by apply listed_skip]].
      intros k. rewrite Hss. by apply lookup_listed_absent.
Qed.

Lemma bind_seq {A B : Type} (c : Js A) (k : Js B) (map : Map) :
  (c ;; k) map
  = match c map with
    | Return _ map' => k map'
    | Throw e => Throw e
    end.
Proof. reflexivity. Qed.

(** A run of [cleanupLayers]: it returns, and the map it leaves behind is
    the one it was given less the listed layers and sources; the calls it
    made are [removeLayer] calls followed by [removeSource] calls. *)
Lemma cleanupLayers_run (layerIds sourceIds : list string) (map : Map) :
  ∃ removed_layers removed_sources map',
    cleanupLayers layerIds sourceIds map = Return tt map'
    ∧ layers (style map') = filter (λ l, layer_id l ∉ layerIds) (layers (style map))
    ∧ (∀ id, sources (style map') !! id =
             if decide (id ∈ sourceIds) then None else sources (style map) !! id)
    ∧ calls map' = calls map ++ (RemoveLayer <$> removed_layers)
                             ++ (RemoveSource <$> removed_sources)
    ∧ removed_layers ⊆ layerIds
    ∧ removed_sources ⊆ sourceIds.
Proof.
  unfold cleanupLayers. rewrite bind_seq.
  destruct (forEach_remove_layers layerIds map) as (rl & -> & Hrl).
  match goal with |- context [forEach sourceIds ?cb ?m] =>
    destruct (forEach_remove_sources sourceIds m)
      as (rs & map' & -> & Hls & Hss & Hcs & Hrs)
  end.
  exists rl, rs, map'. simpl in *.
  split; [done|]. split; [done|]. split; [done|].
  split; [|done]. rewrite Hcs. by rewrite <- app_assoc.
Qed.

Lemma find_has_id_absent (map : Map) (id : string) :
  ¬ has_layer map id → find (has_id id) (layers (style map)) = None.
Proof.
  intros Habsent. apply find_has_id_None. intros l Hl Hid.
  apply Habsent. by exists l.
Qed.

Lemma lookup_source_absent (map : Map) (id : string) :
  ¬ has_source map id → sources (style map) !! id = None.
Proof.
  unfold has_source. intros Habsent.
  destruct (sources (style map) !! id) eqn:Hlook; [|done].
  destruct Habsent. by eexists.
Qed.

(** With none of the listed ids registered, [cleanupLayers] makes no call
    on the map and returns it as it was. *)
Lemma cleanupLayers_nothing_present (layerIds sourceIds : list string) (map : Map) :
  (∀ id, id ∈ layerIds → ¬ has_layer map id) →
  (∀ id, id ∈ sourceIds → ¬ has_source map id) →
  cleanupLayers layerIds sourceIds map = Return tt map.
Proof.
  intros Hlayers Hsources. unfold cleanupLayers. rewrite bind_seq.
  assert (forEach layerIds (λ layerId,
            do l <- getLayer layerId;
            if truthy l then removeLayer layerId else ret tt) map
          = Return tt map) as ->.
  { induction layerIds as [|id ids IH]; [done|].
    rewrite forEach_cons, remove_layer_if_present.
    rewrite find_has_id_absent by (apply Hlayers; by left).
    apply IH. intros id' Hid'. apply Hlayers. by right. }
  induction sourceIds as [|id ids IH]; [done|].
  rewrite forEach_cons, remove_source_if_present.
  rewrite lookup_source_absent by (apply Hsources; by left).
  apply IH. intros id' Hid'. apply Hsources. by right.
Qed.

(** C6: [cleanupLayers] returns without throwing; afterwards the layers are
    those of the map whose id is not listed, in their order, and a source id
    is registered exactly if it was registered and is not listed, with the
    source it had. *)
Theorem cleanupLayers_removes_listed (layerIds sourceIds : list string) (map : Map) :
  ∃ map',
    cleanupLayers layerIds sourceIds map = Return tt map'
    ∧ layers (style map') = filter (λ l, layer_id l ∉ layerIds) (layers (style map))
    ∧ ∀ id, sources (style map') !! id =
            if decide (id ∈ sourceIds) then None else sources (style map) !! id.
Proof.
  destruct (cleanupLayers_run layerIds sourceIds map)
    as (_ & _ & map' & Hrun & Hls & Hss & _).
  by exists map'.
Qed.

(** C7: a second call with the same ids returns without throwing and leaves
    the map the first call produced as it is. *)
Theorem cleanupLayers_idempotent (layerIds sourceIds : list string) (map : Map) :
  ∃ map',
    cleanupLayers layerIds sourceIds map = Return tt map'
    ∧ cleanupLayers layerIds sourceIds map' = Return tt map'.
Proof.
  destruct (cleanupLayers_run layerIds sourceIds map)
    as (_ & _ & map' & Hrun & Hls & Hss & _).
  exists map'. split; [done|].
  apply cleanupLayers_nothing_present.
  - intros id Hid (l & Hl & Hlid). rewrite Hls in Hl.
    apply list_elem_of_filter in Hl as [Hnot _]. by rewrite Hlid in Hnot.
  - intros id Hid [s Hs]. rewrite Hss in Hs.
    by rewrite decide_True in Hs.
Qed.

Lemma layers_then_sources (removed_layers removed_sources : list string) :
  layers_before_sources
    ((RemoveLayer <$> removed_layers) ++ (RemoveSource <$> removed_sources)).
Proof.
  intros i j a b Hi Hj.
  apply lookup_app_Some in Hi as [Hi | [Hlen _]].
  { apply list_lookup_fmap_Some in Hi as (? & ? & ?). done. }
  apply lookup_app_Some in Hj as [Hj | [_ Hj]].
  - apply lookup_lt_Some in Hj. lia.
  - apply list_lookup_fmap_Some in Hj as (? & ? & ?). done.
Qed.

(** C10: the calls [cleanupLayers] makes on the map are appended to the
    call record in an order in which every [removeLayer] call comes before
    every [removeSource] call. *)
Theorem cleanupLayers_layers_first (layerIds sourceIds : list string) (map : Map) :
  ∃ map' ops,
    cleanupLayers layerIds sourceIds map = Return tt map'
    ∧ calls map' = calls map ++ ops
    ∧ layers_before_sources ops.
Proof.
  destruct (cleanupLayers_run layerIds sourceIds map)
    as (rl & rs & map' & Hrun & _ & _ & Hcalls & _).
  exists map', ((RemoveLayer <$> rl) ++ (RemoveSource <$> rs)).
  split; [done|]. split; [done|]. apply layers_then_sources.
Qed.

Example cleanupLayers_sample :
  cleanupLayers ["municipalities-fill"; "municipalities-line"; "municipalities-fill"]
                ["municipalities"; "postcode6"] sample_map
  = Return tt
      {| style :=
           {| layers := [ {| layer_id := "water"; layer_type := "fill" |};
                          {| layer_id := "place-labels"; layer_type := "symbol" |};
                          {| layer_id := "poi-labels"; layer_type := "symbol" |} ];
              sources := {[ "composite" := {| source_type := "vector" |} ]} |};
         calls := [RemoveLayer "municipalities-fill"; RemoveSource "municipalities"] |}.
Proof. vm_compute. reflexivity. Qed.

(** The guards matter: on the strict host an unguarded removal of an
    unregistered id throws. *)
Example removeSource_unguarded_throws :
  removeSource "postcode6" sample_map = Throw "There is no source with this ID".
Proof. vm_compute. reflexivity. Qed.



(** ** No helper throws on well-shaped inputs *)















(** The other exceptions the conditions rule out. *)
Example getMinMax_null_properties_throws :
  Runtime.getMinMaxFromGeoJson sample_environment
    {| raw_features := [ {| raw_properties := Some {[ "aantalInwoners" := num 5 ]} |};
                         {| raw_properties := None |} ] |}
    "aantalInwoners"
  = Abrupt TypeError.
Proof. reflexivity. Qed.

Example fill_color_without_chroma_throws :
  Runtime.getDynamicFillColorExpression
    {| max_arguments := None; chroma_global := None |}
    (raw sample_mixed) "aantalInwoners"
  = Abrupt ReferenceError.
Proof. vm_compute. reflexivity. Qed.

Example fill_color_chroma_call_throws :
  Runtime.getDynamicFillColorExpression
    {| max_arguments := None; chroma_global := Some sample_throwing_chroma |}
    (raw sample_mixed) "aantalInwoners"
  = Abrupt LibraryError.
Proof. vm_compute. reflexivity. Qed.

Example findFirstSymbolLayer_without_style_throws :
  Runtime.findFirstSymbolLayer {| instance := sample_map; style_loaded := false |}
  = Abrupt TypeError.
Proof. reflexivity. Qed.

(** * Further properties of the helpers *)

(** ** Rounding never produces [NaN] *)

Lemma shr_1_nonneg (mrs : shr_record) :
  (0 ≤ shr_m mrs)%Z → (0 ≤ shr_m (shr_1 mrs))%Z.
Proof. destruct mrs as [[|[p|p|]|p] r s]; simpl; lia. Qed.

Lemma iter_shr_1_nonneg (p : positive) (mrs : shr_record) :
  (0 ≤ shr_m mrs)%Z → (0 ≤ shr_m (SpecFloat.iter_pos shr_1 p mrs))%Z.
Proof.
  revert mrs. induction p as [p IH | p IH |]; intros mrs Hm; simpl.
  - apply IH, IH. by apply shr_1_nonneg.
  - by apply IH, IH.
  - by apply shr_1_nonneg.
Qed.

Lemma shr_fexp_nonneg (m e : Z) (l : location) :
  (0 ≤ m)%Z → (0 ≤ shr_m (fst (shr_fexp Number.prec Number.emax m e l)))%Z.
Proof.
  intros Hm. unfold shr_fexp, shr.
  assert (0 ≤ shr_m (shr_record_of_loc m l))%Z as Hrec
    by (destruct l as [|[]]; done).
  destruct (_ - e)%Z; simpl; try done. by apply iter_shr_1_nonneg.
Qed.

Lemma round_nearest_even_nonneg (m : Z) (l : location) :
  (0 ≤ m)%Z → (0 ≤ round_nearest_even m l)%Z.
Proof.
  intros Hm. destruct l as [|[]]; simpl; try lia. destruct (Z.even m); lia.
Qed.

Lemma binary_round_aux_not_NaN (s : bool) (m e : Z) (l : location) :
  (0 ≤ m)%Z →
  Number.isNaN (binary_round_aux Number.prec Number.emax s m e l) = false.
Proof.
  intros Hm. unfold binary_round_aux.
  pose proof (shr_fexp_nonneg m e l Hm) as H1.
  destruct (shr_fexp Number.prec Number.emax m e l) as [mrs' e'].
  simpl in H1.
  pose proof (shr_fexp_nonneg _ e' loc_Exact
                (round_nearest_even_nonneg _ (loc_of_shr_record mrs') H1)) as H2.
  destruct (shr_fexp Number.prec Number.emax _ e' loc_Exact) as [mrs'' e''].
  simpl in H2.
  destruct (shr_m mrs'') as [|p|p]; [done| |lia].
  by destruct (e'' <=? _)%Z.
Qed.

Lemma binary_normalize_not_NaN (m e : Z) (szero : bool) :
  Number.isNaN (binary_normalize Number.prec Number.emax m e szero) = false.
Proof.
  destruct m as [|p|p]; simpl; [done| |];
    unfold binary_round; destruct (shl_align _ _ _) as [mz ez];
    by apply binary_round_aux_not_NaN.
Qed.

(** [x + 1] is a number whenever [x] is. *)
Lemma add_one_not_NaN (x : number) :
  Number.isNaN x = false → Number.isNaN (Number.add x Number.one) = false.
Proof.
  intros Hx. destruct x as [s|s| |s m e]; try done.
  unfold Number.add, Number.one, SFadd. apply binary_normalize_not_NaN.
Qed.

Lemma has_value_not_NaN (d : GeoJson) (key : string) (x : number) :
  has_value d key x → Number.isNaN x = false.
Proof. by intros (_ & _ & _ & Hx). Qed.

Lemma strict_eq_refl (x : number) :
  Number.isNaN x = false → Number.strict_eq x x = true.
Proof. intros Hx. apply strict_eq_le. split; by apply le_refl. Qed.

Lemma strict_eq_trans (x y z : number) :
  Number.strict_eq x y = true → Number.strict_eq y z = true →
  Number.strict_eq x z = true.
Proof.
  intros [? ?]%strict_eq_le [? ?]%strict_eq_le.
  apply strict_eq_le. split; by eapply le_trans.
Qed.

Lemma le_not_eq_lt (x y : number) :
  Number.le x y = true → Number.strict_eq x y = false → Number.lt x y = true.
Proof. unfold_cmp. by destruct (SFcompare x y) as [[]|]. Qed.

(** With two values that differ the minimum and the maximum differ. *)
Lemma distinct_values_range (d : GeoJson) (key : string) :
  (∃ x y, has_value d key x ∧ has_value d key y ∧ Number.strict_eq x y = false) →
  numeric_values d key ≠ []
  ∧ Number.strict_eq (Math.min (numeric_values d key))
                     (Math.max (numeric_values d key)) = false.
Proof.
  intros (x & y & Hx & Hy & Hxy).
  assert (numeric_values d key ≠ []) as Hne.
  { apply elem_of_numeric_values in Hx. intros Heq. rewrite Heq in Hx.
    inversion Hx. }
  split; [done|].
  destruct (getMinMax_nonempty d key Hne) as (_ & _ & Hbounds & _).
  destruct (Number.strict_eq (Math.min _) _) eqn:Heq; [|done].
  apply strict_eq_le in Heq as [_ HMm].
  destruct (Hbounds x Hx) as [Hmx HxM], (Hbounds y Hy) as [Hmy HyM].
  assert (Number.strict_eq x y = true); [|congruence].
  apply strict_eq_le. split.
  - eapply le_trans; [exact HxM|]. by eapply le_trans.
  - eapply le_trans; [exact HyM|]. by eapply le_trans.
Qed.

(** ** More on [getMinMaxFromGeoJson] *)

(** X1: the range depends only on which numeric values occur for the key,
    not on the order of the features or on how often a value occurs: two
    collections with the same numeric values get ranges whose lower bounds
    are [===] and whose upper bounds are [===]. *)
Theorem getMinMax_same_values (d d' : GeoJson) (key : string) :
  (∀ x, has_value d key x ↔ has_value d' key x) →
  Number.strict_eq (getMinMaxFromGeoJson d key).1
                   (getMinMaxFromGeoJson d' key).1 = true
  ∧ Number.strict_eq (getMinMaxFromGeoJson d key).2
                     (getMinMaxFromGeoJson d' key).2 = true.
Proof.
  intros Hsame.
  destruct (numeric_values d key) as [|v vs] eqn:Hvals.
  - assert (numeric_values d' key = []) as Hvals'.
    { destruct (numeric_values d' key) as [|v' vs'] eqn:Hvals'; [done|].
      assert (v' ∈ numeric_values d key) as Hv'.
      { apply elem_of_numeric_values, Hsame, elem_of_numeric_values.
        rewrite Hvals'. by left. }
      rewrite Hvals in Hv'. inversion Hv'. }
    by rewrite (getMinMax_nil d key), (getMinMax_nil d' key).
  - assert (numeric_values d key ≠ []) as Hne by (by rewrite Hvals).
    assert (numeric_values d' key ≠ []) as Hne'.
    { intros Hnil.
      assert (v ∈ numeric_values d' key) as Hv.
      { apply elem_of_numeric_values, Hsame, elem_of_numeric_values.
        rewrite Hvals. by left. }
      rewrite Hnil in Hv. inversion Hv. }
    destruct (getMinMax_nonempty d key Hne) as (Hm & HM & Hb & ->).
    destruct (getMinMax_nonempty d' key Hne') as (Hm' & HM' & Hb' & ->).
    set (m := Math.min (numeric_values d key)) in *.
    set (M := Math.max (numeric_values d key)) in *.
    set (m' := Math.min (numeric_values d' key)) in *.
    set (M' := Math.max (numeric_values d' key)) in *.
    assert (Number.strict_eq m m' = true) as Hmm.
    { apply strict_eq_le. split.
      - by apply Hb, Hsame. - by apply Hb', Hsame. }
    assert (Number.strict_eq M M' = true) as HMM.
    { apply strict_eq_le. split.
      - by apply Hb', Hsame. - by apply Hb, Hsame. }
    assert (Number.strict_eq m M = Number.strict_eq m' M') as Hdeg.
    { apply eq_true_iff_eq. split; intros Heq.
      - eapply strict_eq_trans; [|exact HMM].
        eapply strict_eq_trans; [|exact Heq].
        apply strict_eq_le. apply strict_eq_le in Hmm. tauto.
      - eapply strict_eq_trans; [exact Hmm|].
        eapply strict_eq_trans; [exact Heq|].
        apply strict_eq_le. apply strict_eq_le in HMM. tauto. }
    rewrite <- Hdeg. destruct (Number.strict_eq m M); simpl.
    + split; [done|]. rewrite (strict_eq_add_one m m') by done.
      by eapply strict_eq_refl, add_one_not_NaN, has_value_not_NaN.
    + done.
Qed.

Lemma getMinMax_same_values_witness :
  Number.strict_eq (getMinMaxFromGeoJson sample_mixed "aantalInwoners").1
                   (getMinMaxFromGeoJson sample_mixed_shuffled "aantalInwoners").1
    = true
  ∧ Number.strict_eq (getMinMaxFromGeoJson sample_mixed "aantalInwoners").2
                     (getMinMaxFromGeoJson sample_mixed_shuffled "aantalInwoners").2
    = true.
Proof.
  apply getMinMax_same_values.
  intros x. rewrite <- !elem_of_numeric_values.
  change (x ∈ [Number.of_Z 5; Number.of_Z 9]
          ↔ x ∈ [Number.of_Z 9; Number.of_Z 5; Number.of_Z 5]).
  rewrite !elem_of_cons, !elem_of_nil. tauto.
Defined.

(** X2: with two numeric values that differ, the lower bound of the range
    is strictly below the upper bound. *)
Theorem getMinMax_distinct_strict (d : GeoJson) (key : string) :
  (∃ x y, has_value d key x ∧ has_value d key y ∧ Number.strict_eq x y = false) →
  Number.lt (getMinMaxFromGeoJson d key).1 (getMinMaxFromGeoJson d key).2 = true.
Proof.
  intros Hdistinct.
  destruct (distinct_values_range d key Hdistinct) as [Hne Hneq].
  destruct (getMinMax_nonempty d key Hne) as (Hm & HM & Hb & ->).
  rewrite Hneq. simpl. apply le_not_eq_lt; [|done]. by apply Hb.
Qed.

Lemma getMinMax_distinct_strict_witness :
  Number.lt (getMinMaxFromGeoJson sample_mixed "aantalInwoners").1
            (getMinMaxFromGeoJson sample_mixed "aantalInwoners").2 = true.
Proof.
  apply getMinMax_distinct_strict.
  exists (Number.of_Z 5), (Number.of_Z 9).
  split; [|split; [|reflexivity]].
  - exists (feature_with "aantalInwoners" (num 5)).
    split; [repeat constructor|]. split; reflexivity.
  - exists (feature_with "aantalInwoners" (num 9)).
    split; [repeat constructor|]. split; reflexivity.
Defined.

(** X3: neither bound of the returned range is ever [NaN], whatever the
    collection holds. *)
Theorem getMinMax_never_NaN (d : GeoJson) (key : string) :
  Number.isNaN (getMinMaxFromGeoJson d key).1 = false
  ∧ Number.isNaN (getMinMaxFromGeoJson d key).2 = false.
Proof.
  destruct (numeric_values d key) as [|v vs] eqn:Hvals.
  - by rewrite getMinMax_nil.
  - assert (numeric_values d key ≠ []) as Hne by (by rewrite Hvals).
    destruct (getMinMax_nonempty d key Hne) as (Hm & HM & _ & ->).
    apply has_value_not_NaN in Hm, HM.
    destruct (Number.strict_eq _ _); simpl; split; try done.
    by apply add_one_not_NaN.
Qed.

(** X4: a feature that holds no number other than [NaN] under the key can
    be dropped from the collection, wherever it stands, without changing
    the range. *)
Theorem getMinMax_skips_feature (before : list Feature) (f : Feature)
    (after : list Feature) (key : string) :
  (∀ x, properties f !! key = Some (JNum x) → Number.isNaN x = true) →
  getMinMaxFromGeoJson {| features := before ++ f :: after |} key
  = getMinMaxFromGeoJson {| features := before ++ after |} key.
Proof.
  intros Hf.
  assert (numeric_values {| features := before ++ f :: after |} key
          = numeric_values {| features := before ++ after |} key) as Hvals.
  { unfold numeric_values. simpl.
    change (map ?g ?l) with (g <$> l).
    rewrite !fmap_app, !omap_app, fmap_cons. simpl.
    assert (keep_numeric (get_property (properties f) key) = None) as ->; [|done].
    unfold get_property.
    destruct (properties f !! key) as [[| | |x| | |]|] eqn:Hget; try done.
    simpl. by rewrite (Hf x eq_refl). }
  unfold getMinMaxFromGeoJson. by rewrite Hvals.
Qed.

Lemma getMinMax_skips_feature_witness :
  getMinMaxFromGeoJson
    {| features := [feature_with "aantalInwoners" (num 5)]
                   ++ feature_with "aantalInwoners" (JNum Number.NaN)
                   :: [feature_with "aantalInwoners" (num 9)] |} "aantalInwoners"
  = getMinMaxFromGeoJson
      {| features := [feature_with "aantalInwoners" (num 5)]
                     ++ [feature_with "aantalInwoners" (num 9)] |} "aantalInwoners".
Proof.
  apply getMinMax_skips_feature.
  intros x Hx. vm_compute in Hx. by injection Hx as <-.
Defined.

(** ** More on [findFirstSymbolLayer] *)

(** X6: a [null] result means that the style has no symbol layer, and a
    returned id is the id of a symbol layer of the style that no symbol
    layer precedes. *)
Theorem findFirstSymbolLayer_result (map : Map) :
  (findFirstSymbolLayer map = None ↔ Forall not_symbol (layers (getStyle map)))
  ∧ (∀ id, findFirstSymbolLayer map = Some id →
       ∃ before l after,
         layers (getStyle map) = before ++ l :: after
         ∧ Forall not_symbol before
         ∧ layer_type l = "symbol"
         ∧ layer_id l = id).
Proof.
  unfold findFirstSymbolLayer.
  destruct (first_symbol_split (layers (getStyle map)))
    as [Hnone | (before & l & after & Heq & Hbefore & Hl)].
  - rewrite (first_symbol_none _ Hnone). split; [done|]. intros id [=].
  - rewrite Heq, (first_symbol_app before l after Hbefore Hl). split.
    + split; [done|]. intros Hall. apply Forall_app in Hall as [_ Hall].
      apply Forall_cons in Hall as [Hnot _]. done.
    + intros id [= <-]. by exists before, l, after.
Qed.

Lemma findFirstSymbolLayer_result_witness :
  Forall not_symbol (layers (getStyle sample_map_no_labels))
  ∧ ∃ before l after,
      layers (getStyle sample_map) = before ++ l :: after
      ∧ Forall not_symbol before
      ∧ layer_type l = "symbol"
      ∧ layer_id l = "place-labels".
Proof.
  split.
  - by apply (findFirstSymbolLayer_result sample_map_no_labels).
  - by apply (findFirstSymbolLayer_result sample_map).
Defined.

Lemma first_symbol_filter (layerIds : list string) (ls : list Layer) :
  (∀ id, first_symbol ls = Some id → id ∉ layerIds) →
  first_symbol (filter (λ l, layer_id l ∉ layerIds) ls) = first_symbol ls.
Proof.
  induction ls as [|l ls IH]; [done|]. simpl. intros Hkept.
  destruct (String.eqb (layer_type l) "symbol") eqn:Hl.
  - rewrite filter_cons_True by (by apply Hkept). simpl. by rewrite Hl.
  - rewrite filter_cons. destruct (decide (layer_id l ∉ layerIds)); simpl.
    + rewrite Hl. by apply IH.
    + by apply IH.
Qed.

(** X7: [cleanupLayers] does not change what [findFirstSymbolLayer]
    returns, provided the id it returned is not among the listed layer
    ids. *)
Theorem findFirstSymbolLayer_after_cleanup (layerIds sourceIds : list string)
    (map : Map) :
  (∀ id, findFirstSymbolLayer map = Some id → id ∉ layerIds) →
  ∃ map',
    cleanupLayers layerIds sourceIds map = Return tt map'
    ∧ findFirstSymbolLayer map' = findFirstSymbolLayer map.
Proof.
  intros Hkept.
  destruct (cleanupLayers_run layerIds sourceIds map)
    as (_ & _ & map' & Hrun & Hls & _).
  exists map'. split; [done|].
  unfold findFirstSymbolLayer, getStyle in *. rewrite Hls.
  by apply first_symbol_filter.
Qed.

Lemma findFirstSymbolLayer_after_cleanup_witness :
  ∃ map',
    cleanupLayers ["municipalities-fill"; "poi-labels"] ["municipalities"] sample_map
      = Return tt map'
    ∧ findFirstSymbolLayer map' = findFirstSymbolLayer sample_map.
Proof.
  apply findFirstSymbolLayer_after_cleanup.
  intros id Hid. vm_compute in Hid. injection Hid as <-.
  rewrite !not_elem_of_cons. repeat split; try discriminate.
  apply not_elem_of_nil.
Defined.

(** ** More on [cleanupLayers] *)

Lemma style_eq (s1 s2 : Style) :
  layers s1 = layers s2 →
  (∀ id, sources s1 !! id = sources s2 !! id) →
  s1 = s2.
Proof.
  destruct s1 as [l1 ss1], s2 as [l2 ss2]. simpl.
  intros -> Hss. f_equal. by apply map_eq.
Qed.

(** X8: cleaning up in two batches leaves the same layers and sources as
    cleaning up the concatenated lists in one call. *)
Theorem cleanupLayers_batches (layerIds1 layerIds2 sourceIds1 sourceIds2 : list string)
    (map : Map) :
  ∃ map1 map2 map12,
    cleanupLayers layerIds1 sourceIds1 map = Return tt map1
    ∧ cleanupLayers layerIds2 sourceIds2 map1 = Return tt map2
    ∧ cleanupLayers (layerIds1 ++ layerIds2) (sourceIds1 ++ sourceIds2) map
      = Return tt map12
    ∧ style map2 = style map12.
Proof.
  destruct (cleanupLayers_run layerIds1 sourceIds1 map)
    as (_ & _ & map1 & Hrun1 & Hls1 & Hss1 & _).
  destruct (cleanupLayers_run layerIds2 sourceIds2 map1)
    as (_ & _ & map2 & Hrun2 & Hls2 & Hss2 & _).
  destruct (cleanupLayers_run (layerIds1 ++ layerIds2) (sourceIds1 ++ sourceIds2) map)
    as (_ & _ & map12 & Hrun12 & Hls12 & Hss12 & _).
  exists map1, map2, map12. repeat (split; [done|]).
  apply style_eq.
  - rewrite Hls2, Hls1, Hls12, list_filter_filter.
    apply list_filter_iff. intros l. rewrite not_elem_of_app. tauto.
  - intros id. rewrite Hss2, Hss1, Hss12.
    destruct (decide (id ∈ sourceIds1)) as [H1|H1],
             (decide (id ∈ sourceIds2)) as [H2|H2],
             (decide (id ∈ sourceIds1 ++ sourceIds2)) as [H12|H12];
      try done; rewrite elem_of_app in H12; tauto.
Qed.

(** X9: the layers and sources left by [cleanupLayers] depend only on
    which ids are listed, not on their order or on repetitions. *)
Theorem cleanupLayers_same_ids (layerIds layerIds' sourceIds sourceIds' : list string)
    (map : Map) :
  (∀ id, id ∈ layerIds ↔ id ∈ layerIds') →
  (∀ id, id ∈ sourceIds ↔ id ∈ sourceIds') →
  ∃ map1 map2,
    cleanupLayers layerIds sourceIds map = Return tt map1
    ∧ cleanupLayers layerIds' sourceIds' map = Return tt map2
    ∧ style map1 = style map2.
Proof.
  intros Hlayers Hsources.
  destruct (cleanupLayers_run layerIds sourceIds map)
    as (_ & _ & map1 & Hrun1 & Hls1 & Hss1 & _).
  destruct (cleanupLayers_run layerIds' sourceIds' map)
    as (_ & _ & map2 & Hrun2 & Hls2 & Hss2 & _).
  exists map1, map2. repeat (split; [done|]).
  apply style_eq.
  - rewrite Hls1, Hls2. apply list_filter_iff. intros l. by rewrite Hlayers.
  - intros id. rewrite Hss1, Hss2.
    destruct (decide (id ∈ sourceIds)) as [H1|H1],
             (decide (id ∈ sourceIds')) as [H2|H2]; try done;
      apply Hsources in H1 || apply Hsources in H2; done.
Qed.

Lemma cleanupLayers_same_ids_witness :
  ∃ map1 map2,
    cleanupLayers ["water"; "municipalities-fill"; "water"] ["composite"; "postcode6"]
      sample_map = Return tt map1
    ∧ cleanupLayers ["municipalities-fill"; "water"] ["postcode6"; "composite"]
        sample_map = Return tt map2
    ∧ style map1 = style map2.
Proof.
  apply cleanupLayers_same_ids; intros id;
    rewrite !elem_of_cons, !elem_of_nil; tauto.
Defined.

Lemma has_layer_find (map : Map) (id : string) (l : Layer) :
  find (has_id id) (layers (style map)) = Some l → has_layer map id.
Proof.
  intros [Hin Hid]%find_some. exists l. split; [by apply list_elem_of_In|].
  unfold has_id in Hid. by apply String.eqb_eq.
Qed.

Lemma has_layer_find_None (map : Map) (id : string) :
  find (has_id id) (layers (style map)) = None → ¬ has_layer map id.
Proof.
  intros Hfind (l & Hl & Hid).
  by apply (proj1 (find_has_id_None id _) Hfind l).
Qed.

(** The first loop once more, now with the calls it makes: one
    [removeLayer] call for each listed id that has a layer in the map. *)
Lemma forEach_remove_layers_calls (layerIds : list string) (map : Map) :
  ∃ removed,
    forEach layerIds (λ layerId,
      do l <- getLayer layerId;
      if truthy l then removeLayer layerId else ret tt) map
    = Return tt
        {| style := {| layers := filter (λ l, layer_id l ∉ layerIds)
                                   (layers (style map));
                       sources := sources (style map) |};
           calls := calls map ++ (RemoveLayer <$> removed) |}
    ∧ NoDup removed
    ∧ ∀ a, a ∈ removed ↔ a ∈ layerIds ∧ has_layer map a.
Proof.
  revert map. induction layerIds as [|id ids IH]; intros map.
  - exists []. destruct map as [[ls ss] cs]. simpl. unfold ret.
    rewrite filter_not_listed_nil, app_nil_r.
    split; [done|]. split; [constructor|].
    intros a. rewrite elem_of_nil. tauto.
  - rewrite forEach_cons, remove_layer_if_present.
    destruct (find (has_id id) (layers (style map))) as [l|] eqn:Hfind.
    + set (map1 := {| style := {| layers := filter (λ l, layer_id l ≠ id)
                                               (layers (style map));
                                   sources := sources (style map) |};
                       calls := calls map ++ [RemoveLayer id] |}).
      assert (∀ a, has_layer map1 a ↔ has_layer map a ∧ a ≠ id) as Hmap1.
      { intros a. unfold has_layer. simpl. split.
        - intros (l' & Hl' & <-). apply list_elem_of_filter in Hl' as [? ?].
          split; [by exists l' | done].
        - intros [(l' & Hl' & <-) Hne]. exists l'. split; [|done].
          by apply list_elem_of_filter. }
      destruct (IH map1) as (removed & -> & Hnodup & Hremoved).
      exists (id :: removed). simpl.
      rewrite filter_not_listed_cons, <- app_assoc.
      split; [done|]. split.
      * constructor; [|done]. rewrite Hremoved, Hmap1. tauto.
      * intros a. rewrite !elem_of_cons, Hremoved, Hmap1.
        pose proof (has_layer_find map id l Hfind).
        destruct (decide (a = id)) as [-> | Hne]; tauto.
    + destruct (IH map) as (removed & -> & Hnodup & Hremoved).
      exists removed. rewrite filter_not_listed_absent by done.
      split; [done|]. split; [done|].
      intros a. rewrite elem_of_cons, Hremoved.
      pose proof (has_layer_find_None map id Hfind).
      destruct (decide (a = id)) as [-> | Hne]; tauto.
Qed.

(** The second loop with its calls: one [removeSource] call for each listed
    id that has a source in the map. *)
Lemma forEach_remove_sources_calls (sourceIds : list string) (map : Map) :
  ∃ removed map',
    forEach sourceIds (λ sourceId,
      do s <- getSource sourceId;
      if truthy s then removeSource sourceId else ret tt) map
    = Return tt map'
    ∧ calls map' = calls map ++ (RemoveSource <$> removed)
    ∧ NoDup removed
    ∧ ∀ a, a ∈ removed ↔ a ∈ sourceIds ∧ has_source map a.
Proof.
  revert map. induction sourceIds as [|id ids IH]; intros map.
  - exists [], map. simpl. rewrite app_nil_r.
    split; [done|]. split; [done|]. split; [constructor|].
    intros a. rewrite elem_of_nil. tauto.
  - rewrite forEach_cons, remove_source_if_present.
    destruct (sources (style map) !! id) as [s|] eqn:Hlook.
    + set (map1 := {| style := {| layers := layers (style map);
                                   sources := delete id (sources (style map)) |};
                       calls := calls map ++ [RemoveSource id] |}).
      assert (∀ a, has_source map1 a ↔ has_source map a ∧ a ≠ id) as Hmap1.
      { intros a. unfold has_source. simpl.
        destruct (decide (a = id)) as [-> | Hne].
        - rewrite lookup_delete_eq. split; [by intros [? ?] | tauto].
        - rewrite lookup_delete_ne by done. tauto. }
      destruct (IH map1) as (removed & map' & -> & Hcalls & Hnodup & Hremoved).
      exists (id :: removed), map'. simpl in *.
      split; [done|]. split; [by rewrite Hcalls, <- app_assoc|]. split.
      * constructor; [|done]. rewrite Hremoved, Hmap1. tauto.
      * intros a. rewrite !elem_of_cons, Hremoved, Hmap1.
        assert (has_source map id) by (unfold has_source; by rewrite Hlook).
        destruct (decide (a = id)) as [-> | Hne]; tauto.
    + destruct (IH map) as (removed & map' & -> & Hcalls & Hnodup & Hremoved).
      exists removed, map'.
      split; [done|]. split; [done|]. split; [done|].
      intros a. rewrite elem_of_cons, Hremoved.
      assert (¬ has_source map id)
        by (unfold has_source; rewrite Hlook; by intros [? ?]).
      destruct (decide (a = id)) as [-> | Hne]; tauto.
Qed.

(** X10: [cleanupLayers] calls [removeLayer] once for each listed layer id
    that has a layer in the map and [removeSource] once for each listed
    source id that has a source in the map, and makes no other call: no id
    is removed twice, and no removal is tried on an id that is not
    registered. *)
Theorem cleanupLayers_calls (layerIds sourceIds : list string) (map : Map) :
  ∃ map' removed_layers removed_sources,
    cleanupLayers layerIds sourceIds map = Return tt map'
    ∧ calls map' = calls map ++ (RemoveLayer <$> removed_layers)
                             ++ (RemoveSource <$> removed_sources)
    ∧ NoDup removed_layers
    ∧ NoDup removed_sources
    ∧ (∀ a, a ∈ removed_layers ↔ a ∈ layerIds ∧ has_layer map a)
    ∧ (∀ a, a ∈ removed_sources ↔ a ∈ sourceIds ∧ has_source map a).
Proof.
  unfold cleanupLayers. rewrite bind_seq.
  destruct (forEach_remove_layers_calls layerIds map) as (rl & -> & Hnd & Hrl).
  match goal with |- context [forEach sourceIds ?cb ?m] =>
    destruct (forEach_remove_sources_calls sourceIds m)
      as (rs & map' & -> & Hcs & Hnd' & Hrs)
  end.
  exists map', rl, rs. simpl in *.
  split; [done|]. split; [by rewrite Hcs, <- app_assoc|].
  repeat (split; [done|]). exact Hrs.
Qed.
